(** * doc_manager.py: a polymorphic document hierarchy

    A shallow embedding of [doc_manager.py].  The script defines an abstract
    base class [Document] (built on [abc.ABC]) with two concrete subclasses,
    [PDFDocument] and [WordDocument], a polymorphic routine
    [process_document], and a main block that processes one document of each
    kind.

    Python objects are mutable and shared by reference, and every observable
    effect of the script is a call to [print]; the embedding therefore runs in
    a small monad over a world made of a heap of objects and the list of
    lines printed so far, with exceptions as the error result. *)

From Stdlib Require Import Ascii String.
From stdpp Require Import base option list strings.

(** ** Strings *)

(** The line feed written [\n] in the Python literals. *)
Definition NL : string := String "010"%char EmptyString.

(** The apostrophe that every f-string of the script puts around the
    filename. *)
Definition QUOTE : ascii := "'"%char.

(** Python's [p in s] on strings: [p] occurs in [s] as a contiguous
    substring. *)
Fixpoint contains (p s : string) : bool :=
  String.prefix p s ||
  match s with
  | EmptyString => false
  | String _ s' => contains p s'
  end.

(** ** Classes *)

Inductive class : Set :=
  | Document
  | PDFDocument
  | WordDocument.

#[global] Instance class_eq_dec : EqDecision class.
Proof. solve_decision. Defined.

(** The only base class of the hierarchy is [Document]; it derives from
    [ABC], which contributes no method of its own. *)
Definition base (c : class) : option class :=
  match c with
  | Document => None
  | PDFDocument | WordDocument => Some Document
  end.

(** Methods a class body marks with [@abstractmethod]. *)
Definition abstract_decls (c : class) : list string :=
  match c with
  | Document => ["open"; "save"]
  | PDFDocument | WordDocument => []
  end.

(** Methods a class body defines without the decorator. *)
Definition concrete_defs (c : class) : list string :=
  match c with
  | Document => ["__init__"; "read"]
  | PDFDocument => ["open"; "save"]
  | WordDocument => ["open"; "save"]
  end.

(** [__abstractmethods__] as [ABCMeta] computes it: the methods the class
    declares abstract, and those of its base it does not override.  The
    hierarchy is one level deep, so the base's own set is its declarations. *)
Definition abstractmethods (c : class) : list string :=
  abstract_decls c ++
  match base c with
  | None => []
  | Some b => filter (λ m, m ∉ concrete_defs c) (abstract_decls b)
  end.

(** ** Objects, worlds and the monad *)

(** An instance: its class and the two attributes [__init__] creates.
    [_content] holds [None] or a [str]. *)
Record object : Set := Object {
  cls : class;
  filename : string;
  _content : option string;
}.

(** References are positions in the heap. *)
Definition ref : Set := nat.

Record world : Set := World {
  heap : list object;
  stdout : list string;   (* one entry per call to [print] *)
}.

Inductive exception : Set :=
  (** [TypeError]: instantiating a class whose [__abstractmethods__] is not
      empty. *)
  | TypeError_abstract (c : class) (missing : list string)
  (** [TypeError]: [None += str]. *)
  | TypeError_operand
  (** A reference outside the heap.  Python cannot produce one; the case
      exists because the heap is a list. *)
  | InvalidReference (r : ref).

Definition M (A : Type) : Type := world → exception + (A * world).

#[global] Instance M_ret : MRet M := λ A x w, inr (x, w).

#[global] Instance M_bind : MBind M := λ A B f m w,
  match m w with
  | inl e => inl e
  | inr (x, w') => f x w'
  end.

Definition raise {A} (e : exception) : M A := λ _, inl e.

Definition print (s : string) : M unit := λ w,
  inr ((), World (heap w) (stdout w ++ [s])).

Definition alloc (o : object) : M ref := λ w,
  inr (length (heap w), World (heap w ++ [o]) (stdout w)).

Definition deref (r : ref) : M object := λ w,
  match heap w !! r with
  | Some o => inr (o, w)
  | None => inl (InvalidReference r)
  end.

Definition get_filename (self : ref) : M string :=
  o ← deref self; mret (filename o).

Definition get_content (self : ref) : M (option string) :=
  o ← deref self; mret (_content o).

Definition store (r : ref) (o : object) : M unit := λ w,
  inr ((), World (<[r := o]> (heap w)) (stdout w)).

(** [self._content = v]; the other attributes and the other objects stay. *)
Definition set_content (self : ref) (v : option string) : M unit :=
  o ← deref self; store self (Object (cls o) (filename o) v).

(** What the terminal shows: [print] ends every line with a line feed. *)
Definition text (lines : list string) : string :=
  foldr (λ l acc, l +:+ NL +:+ acc) EmptyString lines.

(** [str(x)] for an [Optional[str]], as an f-string formats it. *)
Definition str (x : option string) : string :=
  match x with
  | None => "None"
  | Some s => s
  end.

(** ** class Document(ABC) *)

(** [Document.__init__]: the attributes of a new instance of class [c]. *)
Definition Document_init (c : class) (filename : string) : object :=
  {| cls := c; filename := filename; _content := None |}.

(** The bodies of the two abstract methods are [pass]. *)
Definition Document_open (self : ref) : M unit := mret ().

Definition Document_save (self : ref) : M unit := mret ().

Definition Document_read (self : ref) : M unit :=
  content ← get_content self;
  fn ← get_filename self;
  match content with
  | None =>
      print ("Content for '" +:+ fn +:+
             "' is not loaded. Please open the document first.")
  | Some c =>
      print ("Reading content of '" +:+ fn +:+ "':" +:+ NL +:+ "---" +:+ NL
             +:+ c +:+ NL +:+ "---")
  end.

(** ** class PDFDocument(Document) *)

Definition PDFDocument_open (self : ref) : M unit :=
  fn ← get_filename self;
  print ("Opening PDF '" +:+ fn +:+ "' using a PDF reader library...");;
  set_content self
    (Some "This is the complex, binary-formatted content of a PDF file.").

Definition PDFDocument_save (self : ref) : M unit :=
  fn ← get_filename self;
  print ("Saving content to PDF '" +:+ fn +:+
         "' with specific PDF formatting...").

(** ** class WordDocument(Document) *)

Definition WordDocument_open (self : ref) : M unit :=
  fn ← get_filename self;
  print ("Opening Word document '" +:+ fn +:+
         "' using a word processor library...");;
  set_content self
    (Some "This is the rich-text, XML-based content of a Word document.").

Definition WordDocument_save (self : ref) : M unit :=
  fn ← get_filename self;
  print ("Saving content to Word '" +:+ fn +:+
         "' with specific Word formatting...").

(** ** Instantiation and method dispatch *)

(** [c(filename)]: [object.__new__] refuses a class that still has abstract
    methods; otherwise the instance is created and [__init__] runs. *)
Definition new (c : class) (filename : string) : M ref :=
  match abstractmethods c with
  | [] => alloc (Document_init c filename)
  | missing => raise (TypeError_abstract c missing)
  end.

(** [self.open()], resolved on the class of the receiver. *)
Definition open (self : ref) : M unit :=
  o ← deref self;
  match cls o with
  | Document => Document_open self
  | PDFDocument => PDFDocument_open self
  | WordDocument => WordDocument_open self
  end.

Definition save (self : ref) : M unit :=
  o ← deref self;
  match cls o with
  | Document => Document_save self
  | PDFDocument => PDFDocument_save self
  | WordDocument => WordDocument_save self
  end.

(** [read] is inherited unchanged by both subclasses. *)
Definition read (self : ref) : M unit := Document_read self.

(** ** process_document *)

Definition SUFFIX : string := NL +:+ "[Appended by processing script]".

(** [doc._content += s]: [None] does not support [+=] with a [str]. *)
Definition iadd_content (doc : ref) (s : string) : M unit :=
  content ← get_content doc;
  match content with
  | None => raise TypeError_operand
  | Some c => set_content doc (Some (c +:+ s))
  end.

Definition process_document (doc : ref) : M unit :=
  fn ← get_filename doc;
  print (NL +:+ "--- Processing document: " +:+ fn +:+ " ---");;
  open doc;;
  read doc;;
  iadd_content doc SUFFIX;;
  save doc;;
  print "--- Finished processing ---".

(** ** Main execution block *)

(** [for x in xs: body(x)] *)
Fixpoint for_each {A} (xs : list A) (body : A → M unit) : M unit :=
  match xs with
  | [] => mret ()
  | x :: xs' => body x;; for_each xs' body
  end.

Definition main : M unit :=
  report ← new PDFDocument "annual_report.pdf";
  memo ← new WordDocument "team_memo.docx";
  let documents_to_process := [report; memo] in
  for_each documents_to_process process_document;;
  print (NL +:+ "--- Demonstrating Encapsulation ---");;
  fn ← get_filename report;
  print ("Accessing the filename (public attribute): " +:+ fn);;
  content ← get_content report;
  print ("Trying to access _content (protected attribute): " +:+ str content);;
  print "The leading underscore is a convention telling developers not to modify this directly.";;
  print "Instead, we should use methods like open() and save() to interact with the object's state.".

(** The interpreter starts with no object and nothing printed. *)
Definition initial : world := World [] [].

(** ** Vocabulary of the specification *)

(** A variant is a class that can be instantiated. *)
Definition is_variant (c : class) : bool :=
  match c with
  | Document => false
  | PDFDocument | WordDocument => true
  end.

(** The placeholder text of each variant. *)
Definition placeholder (c : class) : string :=
  match c with
  | Document => EmptyString
  | PDFDocument =>
      "This is the complex, binary-formatted content of a PDF file."
  | WordDocument =>
      "This is the rich-text, XML-based content of a Word document."
  end.

Definition other_variant (c : class) : class :=
  match c with
  | Document => Document
  | PDFDocument => WordDocument
  | WordDocument => PDFDocument
  end.

(** The messages of the script, as functions of what they interpolate. *)
Definition open_message (c : class) (fn : string) : string :=
  match c with
  | Document => EmptyString
  | PDFDocument => "Opening PDF '" +:+ fn +:+ "' using a PDF reader library..."
  | WordDocument =>
      "Opening Word document '" +:+ fn +:+ "' using a word processor library..."
  end.

Definition save_message (c : class) (fn : string) : string :=
  match c with
  | Document => EmptyString
  | PDFDocument =>
      "Saving content to PDF '" +:+ fn +:+ "' with specific PDF formatting..."
  | WordDocument =>
      "Saving content to Word '" +:+ fn +:+ "' with specific Word formatting..."
  end.

Definition not_loaded_notice (fn : string) : string :=
  "Content for '" +:+ fn +:+ "' is not loaded. Please open the document first.".

Definition framed_content (fn c : string) : string :=
  "Reading content of '" +:+ fn +:+ "':" +:+ NL +:+ "---" +:+ NL +:+ c
  +:+ NL +:+ "---".

Definition read_message (fn : string) (content : option string) : string :=
  match content with
  | None => not_loaded_notice fn
  | Some c => framed_content fn c
  end.

(** The public operations on an instance. *)
Inductive operation : Set := Open | Read | Save | Process.

Definition perform (op : operation) (self : ref) : M unit :=
  match op with
  | Open => open self
  | Read => read self
  | Save => save self
  | Process => process_document self
  end.

Definition perform_all (ops : list operation) (self : ref) : M unit :=
  for_each ops (λ op, perform op self).

(** Operations that call [open]. *)
Definition opens (op : operation) : bool :=
  match op with
  | Open | Process => true
  | Read | Save => false
  end.


(** The part of [process_document] that runs before the append. *)
Definition process_prelude (doc : ref) : M unit :=
  fn ← get_filename doc;
  print (NL +:+ "--- Processing document: " +:+ fn +:+ " ---");;
  open doc;;
  read doc.

(** The part that runs from the append on. *)
Definition process_tail (doc : ref) : M unit :=
  iadd_content doc SUFFIX;;
  save doc;;
  print "--- Finished processing ---".

Definition header (fn : string) : string :=
  NL +:+ "--- Processing document: " +:+ fn +:+ " ---".

(** The object [d] with its content replaced. *)
Definition with_content (d : object) (v : option string) : object :=
  Object (cls d) (filename d) v.

(** The lines the main block prints. *)
Definition main_output : list string :=
  [ header "annual_report.pdf";
    open_message PDFDocument "annual_report.pdf";
    framed_content "annual_report.pdf" (placeholder PDFDocument);
    save_message PDFDocument "annual_report.pdf";
    "--- Finished processing ---";
    header "team_memo.docx";
    open_message WordDocument "team_memo.docx";
    framed_content "team_memo.docx" (placeholder WordDocument);
    save_message WordDocument "team_memo.docx";
    "--- Finished processing ---";
    NL +:+ "--- Demonstrating Encapsulation ---";
    "Accessing the filename (public attribute): annual_report.pdf";
    "Trying to access _content (protected attribute): "
      +:+ placeholder PDFDocument +:+ SUFFIX;
    "The leading underscore is a convention telling developers not to modify this directly.";
    "Instead, we should use methods like open() and save() to interact with the object's state." ].

(** The open-then-read property quantified over every filename: whatever
    the filename, the text printed by [open] followed by [read] on a fresh
    instance contains the variant's own placeholder and not the other
    variant's. *)
Definition open_read_shows_own_text_only : Prop :=
  ∀ c fn, is_variant c = true →
    ∃ doc w1 w2,
      new c fn initial = inr (doc, w1) ∧
      (open doc;; read doc) w1 = inr ((), w2) ∧
      contains (placeholder c) (text (stdout w2)) = true ∧
      contains (placeholder (other_variant c)) (text (stdout w2)) = false.

(** A Word document that has been processed once already. *)
Definition processed_memo : object :=
  Object WordDocument "team_memo.docx"
    (Some (placeholder WordDocument +:+ SUFFIX)).

(** The object [d] once [process_document] has run on it. *)
Definition processed (d : object) : object :=
  with_content d (Some (placeholder (cls d) +:+ SUFFIX)).

(** The five lines one call of [process_document] prints for [d]. *)
Definition process_lines (d : object) : list string :=
  [ header (filename d);
    open_message (cls d) (filename d);
    framed_content (filename d) (placeholder (cls d));
    save_message (cls d) (filename d);
    "--- Finished processing ---" ].

(** A pure account of one public operation on an instance of variant [c]
    named [fn] whose content is [v]: the content it leaves and the lines it
    prints. *)
Definition content_step (c : class) (v : option string) (op : operation)
    : option string :=
  match op with
  | Open => Some (placeholder c)
  | Process => Some (placeholder c +:+ SUFFIX)
  | Read | Save => v
  end.

Definition lines_step (c : class) (fn : string) (v : option string)
    (op : operation) : list string :=
  match op with
  | Open => [open_message c fn]
  | Read => [read_message fn v]
  | Save => [save_message c fn]
  | Process => process_lines (Object c fn v)
  end.

Fixpoint trace (c : class) (fn : string) (v : option string)
    (ops : list operation) : list string :=
  match ops with
  | [] => []
  | op :: ops' =>
      lines_step c fn v op ++ trace c fn (content_step c v op) ops'
  end.

(** How many calls to [print] an operation makes. *)
Definition lines_printed (op : operation) : nat :=
  match op with
  | Open | Read | Save => 1
  | Process => 5
  end.

(** What the loop over a list of documents prints, read off the heap the
    loop starts from. *)
Definition loop_lines (h : list object) (docs : list ref) : list string :=
  concat (map (λ r, from_option process_lines [] (h !! r)) docs).

(** [r] points to an instance of one of the two variants. *)
Definition live_variant (h : list object) (r : ref) : bool :=
  match h !! r with
  | Some d => is_variant (cls d)
  | None => false
  end.

(** Two documents side by side, neither opened yet. *)
Definition two_documents : world :=
  World [Document_init PDFDocument "annual_report.pdf";
         Document_init WordDocument "team_memo.docx"] [].

(** * Properties *)

(** ** Strings *)

Section strings.
Implicit Types (p s t : string) (c : ascii).

Lemma app_String c s t : String c s +:+ t = String c (s +:+ t).
Proof. reflexivity. Qed.

Lemma app_Empty t : EmptyString +:+ t = t.
Proof. reflexivity. Qed.

Lemma app_assoc' s t u : (s +:+ t) +:+ u = s +:+ (t +:+ u).
Proof.
  induction s as [|c s IH]; [reflexivity|].
  rewrite !app_String. by rewrite IH.
Qed.

Lemma contains_String p c s :
  contains p (String c s) = String.prefix p (String c s) || contains p s.
Proof. reflexivity. Qed.

Lemma contains_Empty p :
  contains p EmptyString = String.prefix p EmptyString.
Proof. simpl. apply orb_false_r. Qed.

Lemma prefix_String a p b s :
  String.prefix (String a p) (String b s) =
  if ascii_dec a b then String.prefix p s else false.
Proof. reflexivity. Qed.

Lemma prefix_Empty_l s : String.prefix EmptyString s = true.
Proof. by destruct s. Qed.

(** [prefix] decides "is an initial segment of". *)
Lemma prefix_spec p s : String.prefix p s = true ↔ ∃ b, s = p +:+ b.
Proof.
  revert s. induction p as [|a p IH]; intros s.
  - rewrite prefix_Empty_l. split; [|done]. by exists s.
  - destruct s as [|c s].
    + split; [done|]. by intros [b Hb].
    + rewrite prefix_String. destruct (ascii_dec a c) as [->|Hne].
      * rewrite IH. split; intros [b Hb]; exists b.
        -- rewrite app_String. by f_equal.
        -- rewrite app_String in Hb. by injection Hb.
      * split; [done|]. intros [b Hb]. rewrite app_String in Hb.
        injection Hb as ? ?. congruence.
Qed.

(** [contains] decides "occurs somewhere in". *)
Lemma contains_spec p s : contains p s = true ↔ ∃ a b, s = a +:+ p +:+ b.
Proof.
  induction s as [|c s IH].
  - rewrite contains_Empty, prefix_spec. split.
    + intros [b Hb]. by exists EmptyString, b.
    + intros [[|a0 a] [b Hb]]; [by exists b | done].
  - rewrite contains_String, orb_true_iff, prefix_spec, IH. split.
    + intros [[b Hb]|(a & b & Hb)].
      * by exists EmptyString, b.
      * exists (String c a), b. rewrite app_String. by f_equal.
    + intros ([|a0 a] & b & Hb).
      * left. by exists b.
      * right. rewrite app_String in Hb. injection Hb as ? ?. by exists a, b.
Qed.

Lemma contains_app_l p s t :
  contains p s = true → contains p (s +:+ t) = true.
Proof.
  rewrite !contains_spec. intros (a & b & ->). exists a, (b +:+ t).
  by rewrite !app_assoc'.
Qed.

Lemma contains_app_r p s t :
  contains p t = true → contains p (s +:+ t) = true.
Proof.
  rewrite !contains_spec. intros (a & b & ->). exists (s +:+ a), b.
  by rewrite !app_assoc'.
Qed.

Lemma contains_here p s : contains p (p +:+ s) = true.
Proof. apply contains_spec. by exists EmptyString, s. Qed.

(** A pattern without the character [c] cannot straddle an occurrence of
    [c]: it lies wholly before it or wholly after it. *)
Lemma prefix_before c p s t :
  contains (String c EmptyString) p = false →
  String.prefix p (s +:+ String c t) = String.prefix p s.
Proof.
  revert s. induction p as [|a p IH]; intros s Hc.
  - by rewrite !prefix_Empty_l.
  - rewrite contains_String, prefix_String, prefix_Empty_l in Hc.
    apply orb_false_iff in Hc as [Hac Hp].
    destruct (ascii_dec c a) as [|Hne]; [done|].
    destruct s as [|b s].
    + rewrite app_Empty, prefix_String.
      by destruct (ascii_dec a c) as [->|].
    + rewrite app_String, !prefix_String.
      destruct (ascii_dec a b); [by apply IH | done].
Qed.

Lemma contains_split_at c p s t :
  contains (String c EmptyString) p = false →
  contains p (s +:+ String c t) = contains p s || contains p t.
Proof.
  intros Hc. induction s as [|b s IH].
  - rewrite app_Empty, contains_String, contains_Empty.
    rewrite <- (app_Empty (String c t)) at 1.
    by rewrite prefix_before.
  - rewrite app_String, !contains_String, IH.
    rewrite <- (app_String b s (String c t)), prefix_before by done.
    by rewrite orb_assoc.
Qed.
End strings.

(** ** The monad and the heap primitives *)

Lemma bind_inr {A B} (m : M A) (f : A → M B) w x w' :
  m w = inr (x, w') → (m ≫= f) w = f x w'.
Proof. unfold mbind, M_bind. by intros ->. Qed.

Lemma bind_inl {A B} (m : M A) (f : A → M B) w e :
  m w = inl e → (m ≫= f) w = inl e.
Proof. unfold mbind, M_bind. by intros ->. Qed.

Section primitives.
Context (w : world) (self : ref) (d : object).
Hypothesis Hself : heap w !! self = Some d.

Lemma deref_ok : deref self w = inr (d, w).
Proof. unfold deref. by rewrite Hself. Qed.

Lemma get_filename_ok : get_filename self w = inr (filename d, w).
Proof. unfold get_filename. by rewrite (bind_inr _ _ _ _ _ deref_ok). Qed.

Lemma get_content_ok : get_content self w = inr (_content d, w).
Proof. unfold get_content. by rewrite (bind_inr _ _ _ _ _ deref_ok). Qed.

Lemma set_content_ok v :
  set_content self v w =
  inr ((), World (<[self := with_content d v]> (heap w)) (stdout w)).
Proof. unfold set_content. by rewrite (bind_inr _ _ _ _ _ deref_ok). Qed.

Lemma lookup_updated d' : <[self := d']> (heap w) !! self = Some d'.
Proof. apply list_lookup_insert_eq. by eapply lookup_lt_Some. Qed.
End primitives.

(** Printing leaves the heap alone. *)
Lemma print_ok s w : print s w = inr ((), World (heap w) (stdout w ++ [s])).
Proof. reflexivity. Qed.

(** ** What each operation does to a live object *)

Section operations.
Context (w : world) (self : ref) (d : object).
Hypothesis Hself : heap w !! self = Some d.

Lemma read_ok :
  read self w =
  inr ((), World (heap w)
             (stdout w ++ [read_message (filename d) (_content d)])).
Proof.
  unfold read, Document_read.
  rewrite (bind_inr _ _ _ _ _ (get_content_ok _ _ _ Hself)).
  rewrite (bind_inr _ _ _ _ _ (get_filename_ok _ _ _ Hself)).
  by destruct (_content d).
Qed.

Lemma iadd_content_ok c s :
  _content d = Some c →
  iadd_content self s w =
  inr ((), World (<[self := with_content d (Some (c +:+ s))]> (heap w))
             (stdout w)).
Proof.
  intros Hc. unfold iadd_content.
  rewrite (bind_inr _ _ _ _ _ (get_content_ok _ _ _ Hself)), Hc.
  by apply set_content_ok.
Qed.

Lemma iadd_content_None s :
  _content d = None → iadd_content self s w = inl TypeError_operand.
Proof.
  intros Hc. unfold iadd_content.
  by rewrite (bind_inr _ _ _ _ _ (get_content_ok _ _ _ Hself)), Hc.
Qed.

Hypothesis Hvariant : is_variant (cls d) = true.

Lemma open_ok :
  open self w =
  inr ((), World (<[self := with_content d (Some (placeholder (cls d)))]>
                    (heap w))
             (stdout w ++ [open_message (cls d) (filename d)])).
Proof.
  unfold open. rewrite (bind_inr _ _ _ _ _ (deref_ok _ _ _ Hself)).
  destruct (cls d) eqn:Hcls; [done| |].
  - unfold PDFDocument_open.
    rewrite (bind_inr _ _ _ _ _ (get_filename_ok _ _ _ Hself)).
    erewrite bind_inr by apply print_ok.
    rewrite (set_content_ok _ _ d) by done.
    unfold with_content. by rewrite Hcls.
  - unfold WordDocument_open.
    rewrite (bind_inr _ _ _ _ _ (get_filename_ok _ _ _ Hself)).
    erewrite bind_inr by apply print_ok.
    rewrite (set_content_ok _ _ d) by done.
    unfold with_content. by rewrite Hcls.
Qed.

Lemma save_ok :
  save self w =
  inr ((), World (heap w)
             (stdout w ++ [save_message (cls d) (filename d)])).
Proof.
  unfold save. rewrite (bind_inr _ _ _ _ _ (deref_ok _ _ _ Hself)).
  destruct (cls d) eqn:Hcls; [done| |].
  - unfold PDFDocument_save.
    by rewrite (bind_inr _ _ _ _ _ (get_filename_ok _ _ _ Hself)).
  - unfold WordDocument_save.
    by rewrite (bind_inr _ _ _ _ _ (get_filename_ok _ _ _ Hself)).
Qed.
End operations.

(** ** process_document on a live variant *)

Section processing.
Context (w : world) (doc : ref) (d : object).
Hypothesis Hdoc : heap w !! doc = Some d.
Hypothesis Hvariant : is_variant (cls d) = true.

Let opened : object := with_content d (Some (placeholder (cls d))).

(** The world at the point of the append. *)
Let at_append : world :=
  World (<[doc := opened]> (heap w))
        (stdout w ++ [header (filename d);
                      open_message (cls d) (filename d);
                      read_message (filename d) (Some (placeholder (cls d)))]).

Lemma process_prelude_ok : process_prelude doc w = inr ((), at_append).
Proof.
  unfold process_prelude.
  rewrite (bind_inr _ _ _ _ _ (get_filename_ok _ _ _ Hdoc)).
  erewrite bind_inr by apply print_ok.
  erewrite bind_inr by (by apply open_ok).
  erewrite read_ok by apply (lookup_updated _ _ d Hdoc).
  unfold at_append, header. cbn [heap stdout opened with_content].
  by rewrite <- !(assoc_L (++)).
Qed.

Lemma process_tail_ok :
  process_tail doc at_append =
  inr ((), World (<[doc := with_content d
                             (Some (placeholder (cls d) +:+ SUFFIX))]> (heap w))
             (stdout at_append ++ [save_message (cls d) (filename d);
                                   "--- Finished processing ---"])).
Proof.
  unfold process_tail.
  erewrite bind_inr; last first.
  { apply iadd_content_ok with (d := opened); [|reflexivity].
    apply (lookup_updated _ _ d Hdoc). }
  erewrite bind_inr; last first.
  { apply save_ok with (d := with_content opened
                               (Some (placeholder (cls d) +:+ SUFFIX))); [|done].
    unfold at_append. cbn [heap]. apply list_lookup_insert_eq.
    rewrite length_insert. by eapply lookup_lt_Some. }
  rewrite print_ok. cbn [heap stdout at_append opened with_content cls filename].
  by rewrite list_insert_insert_eq, <- !(assoc_L (++)).
Qed.

(** [process_document] is its prelude followed by its tail. *)
Lemma process_document_split w0 :
  process_document doc w0 =
  match process_prelude doc w0 with
  | inl e => inl e
  | inr (_, w1) => process_tail doc w1
  end.
Proof.
  unfold process_document, process_prelude, process_tail, mbind, M_bind.
  destruct (get_filename doc w0) as [e|[fn w1]]; [done|].
  destruct (print _ w1) as [e|[[] w2]]; [done|].
  destruct (open doc w2) as [e|[[] w3]]; [done|].
  by destruct (read doc w3) as [e|[[] w4]].
Qed.

Lemma process_document_ok :
  process_document doc w =
  inr ((), World (<[doc := with_content d
                             (Some (placeholder (cls d) +:+ SUFFIX))]> (heap w))
             (stdout w ++ [header (filename d);
                           open_message (cls d) (filename d);
                           read_message (filename d)
                             (Some (placeholder (cls d)));
                           save_message (cls d) (filename d);
                           "--- Finished processing ---"])).
Proof.
  rewrite process_document_split, process_prelude_ok, process_tail_ok.
  unfold at_append. cbn [stdout]. by rewrite <- !(assoc_L (++)).
Qed.
End processing.

(** ** Instantiation *)

Lemma abstractmethods_variant c : is_variant c = true → abstractmethods c = [].
Proof. by destruct c. Qed.

Lemma new_variant c fn w :
  is_variant c = true →
  new c fn w =
  inr (length (heap w), World (heap w ++ [Document_init c fn]) (stdout w)).
Proof. intros Hc. unfold new. by rewrite abstractmethods_variant. Qed.

Lemma new_abstract fn w :
  new Document fn w = inl (TypeError_abstract Document ["open"; "save"]).
Proof. reflexivity. Qed.

Lemma lookup_fresh (h : list object) o : (h ++ [o]) !! length h = Some o.
Proof. by apply list_lookup_middle. Qed.

(** [Document] keeps both abstract methods; each subclass overrides both. *)
Example abstractmethods_Document : abstractmethods Document = ["open"; "save"].
Proof. reflexivity. Qed.

Example abstractmethods_PDFDocument : abstractmethods PDFDocument = [].
Proof. reflexivity. Qed.

(** An instance of [Document], could one exist, would keep [None] through
    [open], and [process_document] would raise on the append. *)
Example process_abstract_raises :
  process_document 0 (World [Document_init Document "draft"] [])
  = inl TypeError_operand.
Proof. reflexivity. Qed.

(** ** Sequences of public operations *)

Lemma with_content_same d : with_content d (_content d) = d.
Proof. by destruct d. Qed.

(** One operation on a live variant succeeds, touches no other object and
    changes at most the content of its receiver. *)
Lemma perform_ok op w self d :
  heap w !! self = Some d →
  is_variant (cls d) = true →
  ∃ w' v,
    perform op self w = inr ((), w') ∧
    heap w' = <[self := with_content d v]> (heap w) ∧
    (if opens op then is_Some v else v = _content d).
Proof.
  intros Hself Hvariant. destruct op; simpl.
  - eexists _, _. split; [by apply open_ok|]. split; [done | by eexists].
  - eexists _, (_content d). split; [by apply read_ok|]. split; [|done].
    cbn [heap]. by rewrite with_content_same, list_insert_id.
  - eexists _, (_content d). split; [by apply save_ok|]. split; [|done].
    cbn [heap]. by rewrite with_content_same, list_insert_id.
  - eexists _, _. split; [by apply process_document_ok|].
    split; [done | by eexists].
Qed.

Lemma perform_all_ok ops w self d :
  heap w !! self = Some d →
  is_variant (cls d) = true →
  ∃ w' v,
    perform_all ops self w = inr ((), w') ∧
    heap w' = <[self := with_content d v]> (heap w) ∧
    (v = None ↔ _content d = None ∧ existsb opens ops = false).
Proof.
  revert w d. induction ops as [|op ops IH]; intros w d Hself Hvariant.
  - exists w, (_content d). split; [done|]. split.
    + by rewrite with_content_same, list_insert_id.
    + simpl. intuition.
  - destruct (perform_ok op w self d Hself Hvariant) as (w1 & v1 & Hop & Hh1 & Hv1).
    destruct (IH w1 (with_content d v1)) as (w2 & v2 & Hops & Hh2 & Hv2).
    { rewrite Hh1. by apply (lookup_updated _ _ d). }
    { done. }
    exists w2, v2. split; [|split].
    + unfold perform_all. cbn [for_each]. by rewrite (bind_inr _ _ _ _ _ Hop).
    + rewrite Hh2, Hh1. by rewrite list_insert_insert_eq.
    + rewrite Hv2. cbn [_content with_content existsb].
      destruct (opens op).
      * destruct Hv1 as [s ->]. simpl. intuition congruence.
      * subst v1. simpl. intuition.
Qed.

(** * The claims *)

(** ** Processing a fresh instance *)

(** C1.  For each variant, building an instance and running
    [process_document] on it succeeds and leaves in [_content] the variant's
    placeholder text followed by the suffix [SUFFIX], in that order. *)
Theorem process_document_appends_suffix c fn w :
  is_variant c = true →
  ∃ doc w1 w2,
    new c fn w = inr (doc, w1) ∧
    process_document doc w1 = inr ((), w2) ∧
    _content <$> heap w2 !! doc = Some (Some (placeholder c +:+ SUFFIX)).
Proof.
  intros Hc. eexists _, _, _. split; [by apply new_variant|].
  split.
  - apply process_document_ok with (d := Document_init c fn); [|done].
    apply lookup_fresh.
  - cbn [heap]. rewrite list_lookup_insert_eq; [done|].
    rewrite length_app. simpl. lia.
Qed.

Lemma process_document_appends_suffix_witness :
  is_variant PDFDocument = true ∧
  ∃ doc w1 w2,
    new PDFDocument "annual_report.pdf" initial = inr (doc, w1) ∧
    process_document doc w1 = inr ((), w2) ∧
    _content <$> heap w2 !! doc =
      Some (Some (placeholder PDFDocument +:+ SUFFIX)).
Proof.
  split; [reflexivity|].
  apply (process_document_appends_suffix PDFDocument "annual_report.pdf" initial).
  reflexivity.
Defined.

(** ** Opening, then reading *)

(** The filename is printed too, and nothing keeps it from carrying the
    other variant's placeholder. *)
Lemma open_read_filename_leaks_other_text : ¬ open_read_shows_own_text_only.
Proof.
  intros H.
  destruct (H PDFDocument (placeholder WordDocument) eq_refl)
    as (doc & w1 & w2 & Hnew & Hrun & _ & Hother).
  vm_compute in Hnew. injection Hnew as <- <-.
  vm_compute in Hrun. injection Hrun as <-.
  vm_compute in Hother. discriminate.
Qed.

Section open_then_read.
Context (w : world) (self : ref) (d : object).
Hypothesis Hself : heap w !! self = Some d.
Hypothesis Hvariant : is_variant (cls d) = true.

Lemma open_read_ok :
  (open self;; read self) w =
  inr ((), World (<[self := with_content d (Some (placeholder (cls d)))]>
                    (heap w))
             (stdout w ++ [open_message (cls d) (filename d);
                           framed_content (filename d)
                             (placeholder (cls d))])).
Proof.
  erewrite bind_inr by (by apply open_ok).
  erewrite read_ok by (by apply (lookup_updated _ _ d)).
  cbn [heap stdout with_content filename _content read_message].
  by rewrite <- !(assoc_L (++)).
Qed.

Lemma own_text_shown :
  contains (placeholder (cls d))
    (text [open_message (cls d) (filename d);
           framed_content (filename d) (placeholder (cls d))]) = true.
Proof.
  unfold text, framed_content. cbn [foldr].
  do 2 apply contains_app_r. apply contains_app_l.
  do 6 apply contains_app_r. apply contains_here.
Qed.

Hypothesis Hfilename :
  contains (placeholder (other_variant (cls d))) (filename d) = false.

Lemma other_text_not_shown :
  contains (placeholder (other_variant (cls d)))
    (text [open_message (cls d) (filename d);
           framed_content (filename d) (placeholder (cls d))]) = false.
Proof.
  destruct (cls d); [done| |]; cbn [other_variant] in *.
  - replace (text _) with
      ("Opening PDF " +:+ String QUOTE (filename d +:+ String QUOTE
         ((" using a PDF reader library..." +:+ NL +:+ "Reading content of ")
          +:+ String QUOTE (filename d +:+ String QUOTE
            (":" +:+ NL +:+ "---" +:+ NL +:+ placeholder PDFDocument
             +:+ NL +:+ "---" +:+ NL)))));
      [|unfold text, open_message, framed_content; cbn [foldr];
        rewrite !app_assoc'; reflexivity].
    rewrite !contains_split_at by reflexivity.
    rewrite Hfilename. reflexivity.
  - replace (text _) with
      ("Opening Word document " +:+ String QUOTE (filename d +:+ String QUOTE
         ((" using a word processor library..." +:+ NL
           +:+ "Reading content of ")
          +:+ String QUOTE (filename d +:+ String QUOTE
            (":" +:+ NL +:+ "---" +:+ NL +:+ placeholder WordDocument
             +:+ NL +:+ "---" +:+ NL)))));
      [|unfold text, open_message, framed_content; cbn [foldr];
        rewrite !app_assoc'; reflexivity].
    rewrite !contains_split_at by reflexivity.
    rewrite Hfilename. reflexivity.
Qed.
End open_then_read.

(** C2, as the code has it.  On a variant instance whose filename does not
    contain the other variant's placeholder, [open] followed by [read]
    prints text that contains the variant's own placeholder and does not
    contain the other variant's. *)
Theorem open_read_shows_own_text w self d :
  heap w !! self = Some d →
  is_variant (cls d) = true →
  contains (placeholder (other_variant (cls d))) (filename d) = false →
  ∃ w' out,
    (open self;; read self) w = inr ((), w') ∧
    stdout w' = stdout w ++ out ∧
    contains (placeholder (cls d)) (text out) = true ∧
    contains (placeholder (other_variant (cls d))) (text out) = false.
Proof.
  intros Hself Hvariant Hfilename. eexists _, _.
  split; [by apply open_read_ok|]. split; [done|].
  split; [apply own_text_shown | by apply other_text_not_shown].
Qed.

Lemma open_read_shows_own_text_witness :
  heap (World [processed_memo] []) !! 0 = Some processed_memo ∧
  is_variant (cls processed_memo) = true ∧
  contains (placeholder (other_variant (cls processed_memo)))
    (filename processed_memo) = false ∧
  ∃ w' out,
    (open 0;; read 0) (World [processed_memo] []) = inr ((), w') ∧
    stdout w' = stdout (World [processed_memo] []) ++ out ∧
    contains (placeholder (cls processed_memo)) (text out) = true ∧
    contains (placeholder (other_variant (cls processed_memo))) (text out)
      = false.
Proof.
  split; [reflexivity|]. split; [reflexivity|]. split; [reflexivity|].
  apply (open_read_shows_own_text (World [processed_memo] []) 0 processed_memo);
    reflexivity.
Defined.

(** ** Reading *)

Lemma notice_is_not_framed fn fn' c : not_loaded_notice fn ≠ framed_content fn' c.
Proof. discriminate. Qed.

(** C3.  [read] prints one line and changes nothing else.  While
    [_content] is [None] the line is the "not loaded" notice, which is not
    the framed form of any content; once [_content] holds a string the line
    is that string framed by the delimiters, which is not the notice of any
    filename. *)
Theorem read_notice_or_frame w self d :
  heap w !! self = Some d →
  ∃ line,
    read self w = inr ((), World (heap w) (stdout w ++ [line])) ∧
    match _content d with
    | None =>
        line = not_loaded_notice (filename d) ∧
        ∀ fn c, line ≠ framed_content fn c
    | Some c =>
        line = framed_content (filename d) c ∧
        ∀ fn, line ≠ not_loaded_notice fn
    end.
Proof.
  intros Hself. eexists. split; [by apply read_ok|].
  destruct (_content d) as [c|]; (split; [done|]).
  - intros fn E. by apply (notice_is_not_framed fn (filename d) c).
  - intros fn c. apply notice_is_not_framed.
Qed.

Lemma read_notice_or_frame_witness :
  heap (World [Document_init PDFDocument "annual_report.pdf"] []) !! 0
    = Some (Document_init PDFDocument "annual_report.pdf") ∧
  ∃ line,
    read 0 (World [Document_init PDFDocument "annual_report.pdf"] []) =
      inr ((), World [Document_init PDFDocument "annual_report.pdf"] [line]) ∧
    line = not_loaded_notice "annual_report.pdf" ∧
    ∀ fn c, line ≠ framed_content fn c.
Proof.
  split; [reflexivity|].
  apply (read_notice_or_frame
           (World [Document_init PDFDocument "annual_report.pdf"] []) 0
           (Document_init PDFDocument "annual_report.pdf")).
  reflexivity.
Defined.

(** ** Presence of the content *)

Section fresh.
Context (c : class) (fn : string) (w : world).
Hypothesis Hc : is_variant c = true.

(** Any sequence of public operations on a fresh instance runs to the
    end; the instance keeps its class and filename. *)
Lemma fresh_perform_all ops :
  ∃ doc w1 w2 v,
    new c fn w = inr (doc, w1) ∧
    heap w1 !! doc = Some (Document_init c fn) ∧
    perform_all ops doc w1 = inr ((), w2) ∧
    heap w2 !! doc = Some (Object c fn v) ∧
    (v = None ↔ existsb opens ops = false).
Proof.
  destruct (perform_all_ok ops
              (World (heap w ++ [Document_init c fn]) (stdout w))
              (length (heap w)) (Document_init c fn))
    as (w2 & v & Hops & Hheap & Hv); [apply lookup_fresh | done |].
  eexists _, _, w2, v. split; [by apply new_variant|].
  split; [apply lookup_fresh|]. split; [done|]. split.
  - rewrite Hheap. apply (lookup_updated _ _ (Document_init c fn)), lookup_fresh.
  - rewrite Hv. cbn. intuition.
Qed.
End fresh.

(** C4.  On an instance built by the constructor and then driven through
    any sequence of public operations, every operation succeeds and
    [_content] is [None] exactly when none of the operations performed so
    far called [open] ([process_document] does). *)
Theorem content_absent_until_open c fn w ops :
  is_variant c = true →
  ∃ doc w1 w2 d,
    new c fn w = inr (doc, w1) ∧
    perform_all ops doc w1 = inr ((), w2) ∧
    heap w2 !! doc = Some d ∧
    (_content d = None ↔ existsb opens ops = false).
Proof.
  intros Hc.
  destruct (fresh_perform_all c fn w Hc ops)
    as (doc & w1 & w2 & v & Hnew & _ & Hops & Hd & Hv).
  by exists doc, w1, w2, (Object c fn v).
Qed.

Lemma content_absent_until_open_witness :
  is_variant WordDocument = true ∧
  ∃ doc w1 w2 d,
    new WordDocument "team_memo.docx" initial = inr (doc, w1) ∧
    perform_all [Read; Save; Open; Read; Process; Save] doc w1 = inr ((), w2) ∧
    heap w2 !! doc = Some d ∧
    (_content d = None ↔
     existsb opens [Read; Save; Open; Read; Process; Save] = false).
Proof.
  split; [reflexivity|].
  apply (content_absent_until_open WordDocument "team_memo.docx" initial
           [Read; Save; Open; Read; Process; Save]).
  reflexivity.
Defined.

(** ** Failures *)

Lemma main_ok :
  main initial =
  inr ((), World [Object PDFDocument "annual_report.pdf"
                    (Some (placeholder PDFDocument +:+ SUFFIX));
                  Object WordDocument "team_memo.docx"
                    (Some (placeholder WordDocument +:+ SUFFIX))]
             main_output).
Proof. vm_compute. reflexivity. Qed.

(** C5.  Instantiating [Document] itself raises the [TypeError] of a class
    with abstract methods, at construction.  Nothing else fails: each
    variant is instantiated without error, every sequence of public
    operations on the new instance runs to the end, and so does the main
    block. *)
Theorem abstract_instantiation_only_failure c fn w ops :
  ((c = Document ∧
    new c fn w = inl (TypeError_abstract Document ["open"; "save"]))
   ∨
   (c ≠ Document ∧
    ∃ doc w1 w2,
      new c fn w = inr (doc, w1) ∧
      perform_all ops doc w1 = inr ((), w2)))
  ∧ ∃ w', main initial = inr ((), w').
Proof.
  split; [|eexists; apply main_ok].
  destruct (is_variant c) eqn:Hc.
  - right. split; [by intros ->|].
    destruct (fresh_perform_all c fn w Hc ops)
      as (doc & w1 & w2 & v & Hnew & _ & Hops & _).
    by exists doc, w1, w2.
  - left. destruct c; try discriminate. split; [done | apply new_abstract].
Qed.

(** ** The demonstration *)

(** C6.  The main block runs to the end and prints exactly [main_output]:
    for the PDF document [annual_report.pdf] the open message, the read
    output and the save message, then the same three for the Word document
    [team_memo.docx], in that order among the lines printed. *)
Theorem main_demonstration_order :
  ∃ w,
    main initial = inr ((), w) ∧
    stdout w = main_output ∧
    [ open_message PDFDocument "annual_report.pdf";
      read_message "annual_report.pdf" (Some (placeholder PDFDocument));
      save_message PDFDocument "annual_report.pdf";
      open_message WordDocument "team_memo.docx";
      read_message "team_memo.docx" (Some (placeholder WordDocument));
      save_message WordDocument "team_memo.docx" ] `sublist_of` stdout w.
Proof.
  eexists. split; [apply main_ok|]. split; [reflexivity|].
  cbn [stdout main_output read_message].
  apply sublist_cons, sublist_skip, sublist_skip, sublist_skip.
  apply sublist_cons, sublist_cons, sublist_skip, sublist_skip, sublist_skip.
  apply sublist_nil_l.
Qed.

(** ** Saving *)

(** C7.  [save] on a variant instance succeeds whatever [_content] holds,
    [None] included; it prints the variant's save message and nothing
    else, and leaves the heap, hence the filename and content of the
    instance, as it was. *)
Theorem save_only_prints w self d :
  heap w !! self = Some d →
  is_variant (cls d) = true →
  ∃ w',
    save self w = inr ((), w') ∧
    heap w' = heap w ∧
    heap w' !! self = Some d ∧
    stdout w' = stdout w ++ [save_message (cls d) (filename d)].
Proof.
  intros Hself Hvariant. eexists. split; [by apply save_ok|]. done.
Qed.

Lemma save_only_prints_witness :
  heap (World [Document_init PDFDocument "annual_report.pdf"] []) !! 0
    = Some (Document_init PDFDocument "annual_report.pdf") ∧
  is_variant (cls (Document_init PDFDocument "annual_report.pdf")) = true ∧
  ∃ w',
    save 0 (World [Document_init PDFDocument "annual_report.pdf"] [])
      = inr ((), w') ∧
    heap w' = [Document_init PDFDocument "annual_report.pdf"] ∧
    heap w' !! 0 = Some (Document_init PDFDocument "annual_report.pdf") ∧
    stdout w' = [save_message PDFDocument "annual_report.pdf"].
Proof.
  split; [reflexivity|]. split; [reflexivity|].
  apply (save_only_prints
           (World [Document_init PDFDocument "annual_report.pdf"] []) 0
           (Document_init PDFDocument "annual_report.pdf")); reflexivity.
Defined.

(** ** The filename *)

(** C8.  The filename given to the constructor is the filename of the
    instance after construction and after any sequence of [open], [read],
    [save] and [process_document]. *)
Theorem filename_immutable c fn w ops :
  is_variant c = true →
  ∃ doc w1 w2,
    new c fn w = inr (doc, w1) ∧
    filename <$> heap w1 !! doc = Some fn ∧
    perform_all ops doc w1 = inr ((), w2) ∧
    filename <$> heap w2 !! doc = Some fn.
Proof.
  intros Hc.
  destruct (fresh_perform_all c fn w Hc ops)
    as (doc & w1 & w2 & v & Hnew & Hd1 & Hops & Hd2 & _).
  exists doc, w1, w2. by rewrite Hd1, Hd2.
Qed.

Lemma filename_immutable_witness :
  is_variant PDFDocument = true ∧
  ∃ doc w1 w2,
    new PDFDocument "annual_report.pdf" initial = inr (doc, w1) ∧
    filename <$> heap w1 !! doc = Some "annual_report.pdf" ∧
    perform_all [Open; Read; Save; Process] doc w1 = inr ((), w2) ∧
    filename <$> heap w2 !! doc = Some "annual_report.pdf".
Proof.
  split; [reflexivity|].
  apply (filename_immutable PDFDocument "annual_report.pdf" initial
           [Open; Read; Save; Process]).
  reflexivity.
Defined.

(** ** Opening twice *)

(** C9.  [open] on a variant instance replaces whatever [_content] held by
    the variant's placeholder, and a second [open] leaves the heap as the
    first one made it. *)
Theorem open_overwrites w self d :
  heap w !! self = Some d →
  is_variant (cls d) = true →
  ∃ w1 w2,
    open self w = inr ((), w1) ∧
    heap w1 = <[self := Object (cls d) (filename d)
                          (Some (placeholder (cls d)))]> (heap w) ∧
    open self w1 = inr ((), w2) ∧
    heap w2 = heap w1.
Proof.
  intros Hself Hvariant. eexists _, _.
  split; [by apply open_ok|]. split; [done|]. split.
  - apply open_ok with (d := with_content d (Some (placeholder (cls d))));
      [|done].
    by apply lookup_updated with (d := d).
  - cbn [heap with_content cls filename]. by rewrite list_insert_insert_eq.
Qed.

Lemma open_overwrites_witness :
  heap (World [processed_memo] []) !! 0 = Some processed_memo ∧
  is_variant (cls processed_memo) = true ∧
  ∃ w1 w2,
    open 0 (World [processed_memo] []) = inr ((), w1) ∧
    heap w1 = [Object WordDocument "team_memo.docx"
                 (Some (placeholder WordDocument))] ∧
    open 0 w1 = inr ((), w2) ∧
    heap w2 = heap w1.
Proof.
  split; [reflexivity|]. split; [reflexivity|].
  apply (open_overwrites (World [processed_memo] []) 0 processed_memo);
    reflexivity.
Defined.

(** ** The append inside process_document *)

(** C10.  On a variant instance, the part of [process_document] before the
    append succeeds and leaves a string in [_content]; the append then
    succeeds, and [process_document] as a whole returns without raising. *)
Theorem append_never_fails w doc d :
  heap w !! doc = Some d →
  is_variant (cls d) = true →
  ∃ w1 w2 w3,
    process_prelude doc w = inr ((), w1) ∧
    get_content doc w1 = inr (Some (placeholder (cls d)), w1) ∧
    iadd_content doc SUFFIX w1 = inr ((), w2) ∧
    process_document doc w = process_tail doc w1 ∧
    process_document doc w = inr ((), w3).
Proof.
  intros Hdoc Hvariant. eexists _, _, _.
  split; [by apply process_prelude_ok|].
  assert (∀ out, heap (World (<[doc := with_content d
                                  (Some (placeholder (cls d)))]> (heap w)) out)
                   !! doc
                 = Some (with_content d (Some (placeholder (cls d)))))
    as Hopened by (intros; by apply lookup_updated with (d := d)).
  split; [by rewrite (get_content_ok _ _ _ (Hopened _))|].
  split; [by eapply iadd_content_ok; [apply Hopened | done]|].
  split; [|by apply process_document_ok].
  by rewrite process_document_split, (process_prelude_ok _ _ d).
Qed.

Lemma append_never_fails_witness :
  heap (World [Document_init PDFDocument "annual_report.pdf"] []) !! 0
    = Some (Document_init PDFDocument "annual_report.pdf") ∧
  is_variant (cls (Document_init PDFDocument "annual_report.pdf")) = true ∧
  ∃ w1 w2 w3,
    process_prelude 0 (World [Document_init PDFDocument "annual_report.pdf"] [])
      = inr ((), w1) ∧
    get_content 0 w1 = inr (Some (placeholder PDFDocument), w1) ∧
    iadd_content 0 SUFFIX w1 = inr ((), w2) ∧
    process_document 0
      (World [Document_init PDFDocument "annual_report.pdf"] [])
      = process_tail 0 w1 ∧
    process_document 0
      (World [Document_init PDFDocument "annual_report.pdf"] [])
      = inr ((), w3).
Proof.
  split; [reflexivity|]. split; [reflexivity|].
  apply (append_never_fails
           (World [Document_init PDFDocument "annual_report.pdf"] []) 0
           (Document_init PDFDocument "annual_report.pdf")); reflexivity.
Defined.

(** * Further properties *)

(** ** Sequences of operations, exactly *)

Lemma perform_effect op w self d :
  heap w !! self = Some d →
  is_variant (cls d) = true →
  perform op self w =
  inr ((), World (<[self := with_content d
                             (content_step (cls d) (_content d) op)]> (heap w))
             (stdout w ++ lines_step (cls d) (filename d) (_content d) op)).
Proof.
  intros Hself Hvariant. destruct op; cbn [perform content_step lines_step].
  - by apply open_ok.
  - rewrite (read_ok _ _ d) by done.
    by rewrite with_content_same, list_insert_id.
  - rewrite (save_ok _ _ d) by done.
    by rewrite with_content_same, list_insert_id.
  - by apply process_document_ok.
Qed.

Lemma perform_all_effect ops w self d :
  heap w !! self = Some d →
  is_variant (cls d) = true →
  perform_all ops self w =
  inr ((), World (<[self := with_content d
                             (foldl (content_step (cls d)) (_content d) ops)]>
                    (heap w))
             (stdout w ++ trace (cls d) (filename d) (_content d) ops)).
Proof.
  revert w d. induction ops as [|op ops IH]; intros w d Hself Hvariant.
  - cbn. rewrite with_content_same, list_insert_id, app_nil_r by done.
    by destruct w.
  - unfold perform_all. cbn [for_each].
    erewrite bind_inr by (by apply perform_effect).
    fold (perform_all ops self).
    rewrite (IH _ (with_content d (content_step (cls d) (_content d) op)));
      [|by apply (lookup_updated _ _ d)|done].
    cbn [heap stdout with_content cls filename _content foldl trace].
    by rewrite list_insert_insert_eq, <- (assoc_L (++)).
Qed.

Lemma trace_length c fn v ops :
  length (trace c fn v ops) = sum_list (lines_printed <$> ops).
Proof.
  revert v. induction ops as [|op ops IH]; intros v; [done|].
  cbn [trace fmap list_fmap sum_list]. rewrite length_app, IH.
  by destruct op.
Qed.

Lemma content_after_cases c v ops :
  foldl (content_step c) v ops = v ∨
  foldl (content_step c) v ops = Some (placeholder c) ∨
  foldl (content_step c) v ops = Some (placeholder c +:+ SUFFIX).
Proof.
  revert v. induction ops as [|op ops IH]; intros v; [by left|].
  cbn [foldl].
  destruct (IH (content_step c v op)) as [->|[->| ->]]; [|by auto..].
  destruct op; cbn; auto.
Qed.

Lemma process_document_processed w doc d :
  heap w !! doc = Some d →
  is_variant (cls d) = true →
  process_document doc w =
  inr ((), World (<[doc := processed d]> (heap w))
             (stdout w ++ process_lines d)).
Proof. apply process_document_ok. Qed.

Lemma live_variant_Some h (r : ref) :
  live_variant h r = true → ∃ d, h !! r = Some d ∧ is_variant (cls d) = true.
Proof. unfold live_variant. destruct (h !! r) as [d|]; [by exists d | done]. Qed.

Lemma processed_processed d : processed (processed d) = processed d.
Proof. reflexivity. Qed.

(** Processing one document does not change what the loop prints for any
    document: the lines depend on class and filename only. *)
Lemma loop_lines_insert h (r0 : ref) d0 docs :
  h !! r0 = Some d0 →
  loop_lines (<[r0 := processed d0]> h) docs = loop_lines h docs.
Proof.
  intros H0. unfold loop_lines. f_equal. apply map_ext. intros r.
  destruct (decide (r0 = r)) as [Heq|Hne].
  - subst r. rewrite list_lookup_insert_eq by (by eapply lookup_lt_Some).
    by rewrite H0.
  - by rewrite list_lookup_insert_ne.
Qed.

Lemma for_each_process_ok docs w :
  Forall (λ r, live_variant (heap w) r = true) docs →
  ∃ h',
    for_each docs process_document w =
      inr ((), World h' (stdout w ++ loop_lines (heap w) docs)) ∧
    length h' = length (heap w) ∧
    ∀ (r : ref) d, heap w !! r = Some d →
      h' !! r = Some (if decide (r ∈ docs) then processed d else d).
Proof.
  revert w. induction docs as [|r0 docs IH]; intros w Hdocs.
  - exists (heap w). split; [|split; [done|]].
    + cbn. rewrite app_nil_r. by destruct w.
    + intros r d Hr. by rewrite decide_False by apply not_elem_of_nil.
  - apply Forall_cons in Hdocs as [H0 Hdocs].
    apply live_variant_Some in H0 as (d0 & H0 & Hv0).
    destruct (IH (World (<[r0 := processed d0]> (heap w))
                        (stdout w ++ process_lines d0))) as (h' & Hrun & Hlen & Hlook).
    { eapply Forall_impl; [exact Hdocs|]. intros r Hr. cbn [heap].
      unfold live_variant in *. destruct (decide (r0 = r)) as [Heq|Hne].
      - subst r. rewrite list_lookup_insert_eq by (by eapply lookup_lt_Some).
        done.
      - by rewrite list_lookup_insert_ne. }
    exists h'. split; [|split].
    + cbn [for_each]. erewrite bind_inr by (by apply process_document_processed).
      rewrite Hrun. cbn [heap stdout].
      rewrite (loop_lines_insert _ _ _ _ H0), <- (assoc_L (++)).
      unfold loop_lines at 2. cbn [map concat]. by rewrite H0.
    + by rewrite Hlen; cbn [heap]; rewrite length_insert.
    + intros r d Hr. cbn [heap] in Hlook.
      destruct (decide (r0 = r)) as [Heq|Hne].
      * subst r. rewrite (Hlook r0 (processed d0))
          by (by apply (lookup_updated _ _ d0)).
        assert (d = d0) as -> by congruence.
        rewrite (decide_True (P := r0 ∈ r0 :: docs)) by apply list_elem_of_here.
        by destruct (decide (r0 ∈ docs)).
      * rewrite (Hlook r d) by (by rewrite list_lookup_insert_ne).
        destruct (decide (r ∈ docs)) as [Hin|Hnin].
        -- by rewrite decide_True by (by apply list_elem_of_further).
        -- rewrite decide_False; [done|].
           intros [->|?]%elem_of_cons; done.
Qed.

Lemma messages_tell_variants (c1 c2 : class) fn1 fn2 :
  is_variant c1 = true → is_variant c2 = true → c1 ≠ c2 →
  open_message c1 fn1 ≠ open_message c2 fn2 ∧
  save_message c1 fn1 ≠ save_message c2 fn2.
Proof.
  intros H1 H2 Hne.
  destruct c1, c2; try done; split; discriminate.
Qed.

(** ** process_document from any state *)

(** X1.  On an instance of either variant, whatever [_content] held before,
    [process_document] returns normally, prints exactly the five lines of
    [process_lines] after what was printed before, leaves the placeholder
    followed by the suffix in [_content], and changes no other object. *)
Theorem process_document_effect w doc d :
  heap w !! doc = Some d →
  is_variant (cls d) = true →
  ∃ w',
    process_document doc w = inr ((), w') ∧
    stdout w' = stdout w ++ process_lines d ∧
    heap w' !! doc = Some (processed d) ∧
    length (heap w') = length (heap w) ∧
    ∀ r : ref, r ≠ doc → heap w' !! r = heap w !! r.
Proof.
  intros Hdoc Hvariant. eexists.
  split; [by apply process_document_processed|]. cbn [heap stdout].
  split; [done|]. split; [by apply (lookup_updated _ _ d)|].
  split; [by rewrite length_insert|].
  intros r Hr. by rewrite list_lookup_insert_ne.
Qed.

Lemma process_document_effect_witness :
  heap (World [processed_memo] []) !! 0 = Some processed_memo ∧
  is_variant (cls processed_memo) = true ∧
  ∃ w',
    process_document 0 (World [processed_memo] []) = inr ((), w') ∧
    stdout w' = stdout (World [processed_memo] []) ++ process_lines processed_memo ∧
    heap w' !! 0 = Some (processed processed_memo) ∧
    length (heap w') = length (heap (World [processed_memo] [])) ∧
    ∀ r : ref, r ≠ 0 → heap w' !! r = heap (World [processed_memo] []) !! r.
Proof.
  split; [reflexivity|]. split; [reflexivity|].
  apply (process_document_effect (World [processed_memo] []) 0 processed_memo);
    reflexivity.
Defined.

(** X2.  Processing the same document twice does not stack the suffix: the
    second call prints the same five lines again and leaves the heap exactly
    as the first call left it. *)
Theorem process_document_twice w doc d :
  heap w !! doc = Some d →
  is_variant (cls d) = true →
  ∃ w1 w2,
    process_document doc w = inr ((), w1) ∧
    process_document doc w1 = inr ((), w2) ∧
    heap w2 = heap w1 ∧
    _content <$> heap w2 !! doc = Some (Some (placeholder (cls d) +:+ SUFFIX)) ∧
    stdout w2 = stdout w ++ process_lines d ++ process_lines d.
Proof.
  intros Hdoc Hvariant. eexists _, _.
  split; [by apply process_document_processed|].
  split.
  { apply process_document_processed with (d := processed d); [|done].
    by apply (lookup_updated _ _ d). }
  cbn [heap stdout]. split; [by rewrite list_insert_insert_eq|].
  split.
  - rewrite list_insert_insert_eq, (lookup_updated _ _ d) by done. done.
  - by rewrite <- (assoc_L (++)).
Qed.

Lemma process_document_twice_witness :
  heap two_documents !! 1 = Some (Document_init WordDocument "team_memo.docx") ∧
  is_variant (cls (Document_init WordDocument "team_memo.docx")) = true ∧
  ∃ w1 w2,
    process_document 1 two_documents = inr ((), w1) ∧
    process_document 1 w1 = inr ((), w2) ∧
    heap w2 = heap w1 ∧
    _content <$> heap w2 !! 1 = Some (Some (placeholder WordDocument +:+ SUFFIX)) ∧
    stdout w2 =
      stdout two_documents
      ++ process_lines (Document_init WordDocument "team_memo.docx")
      ++ process_lines (Document_init WordDocument "team_memo.docx").
Proof.
  split; [reflexivity|]. split; [reflexivity|].
  apply (process_document_twice two_documents 1
           (Document_init WordDocument "team_memo.docx")); reflexivity.
Defined.

(** X10.  What [process_document] appended is what a later [read] shows:
    the line [read] prints after a call of [process_document] frames the
    placeholder followed by the suffix. *)
Theorem read_after_process_shows_suffix w doc d :
  heap w !! doc = Some d →
  is_variant (cls d) = true →
  ∃ w',
    (process_document doc;; read doc) w = inr ((), w') ∧
    stdout w' =
      stdout w ++ process_lines d
      ++ [framed_content (filename d) (placeholder (cls d) +:+ SUFFIX)].
Proof.
  intros Hdoc Hvariant. eexists.
  erewrite bind_inr by (by apply process_document_processed).
  erewrite read_ok by (by apply (lookup_updated _ _ d)).
  split; [done|]. cbn [stdout]. by rewrite <- (assoc_L (++)).
Qed.

Lemma read_after_process_shows_suffix_witness :
  heap two_documents !! 0 = Some (Document_init PDFDocument "annual_report.pdf") ∧
  is_variant (cls (Document_init PDFDocument "annual_report.pdf")) = true ∧
  ∃ w',
    (process_document 0;; read 0) two_documents = inr ((), w') ∧
    stdout w' =
      stdout two_documents
      ++ process_lines (Document_init PDFDocument "annual_report.pdf")
      ++ [framed_content "annual_report.pdf" (placeholder PDFDocument +:+ SUFFIX)].
Proof.
  split; [reflexivity|]. split; [reflexivity|].
  apply (read_after_process_shows_suffix two_documents 0
           (Document_init PDFDocument "annual_report.pdf")); reflexivity.
Defined.

(** ** Sequences of operations on one document *)

(** X3.  A sequence of [open], [read], [save] and [process_document] on one
    document never touches another: the heap keeps its size, every other
    reference still points to the object it pointed to, and the receiver
    keeps its class and filename. *)
Theorem operations_frame ops w self d :
  heap w !! self = Some d →
  is_variant (cls d) = true →
  ∃ w' d',
    perform_all ops self w = inr ((), w') ∧
    length (heap w') = length (heap w) ∧
    (∀ r : ref, r ≠ self → heap w' !! r = heap w !! r) ∧
    heap w' !! self = Some d' ∧ cls d' = cls d ∧ filename d' = filename d.
Proof.
  intros Hself Hvariant. eexists _, _.
  split; [by apply perform_all_effect|]. cbn [heap].
  split; [by rewrite length_insert|]. split.
  - intros r Hr. by rewrite list_lookup_insert_ne.
  - split; [by apply (lookup_updated _ _ d)|done].
Qed.

Lemma operations_frame_witness :
  heap two_documents !! 0 = Some (Document_init PDFDocument "annual_report.pdf") ∧
  is_variant (cls (Document_init PDFDocument "annual_report.pdf")) = true ∧
  ∃ w' d',
    perform_all [Process; Open; Save] 0 two_documents = inr ((), w') ∧
    length (heap w') = length (heap two_documents) ∧
    (∀ r : ref, r ≠ 0 → heap w' !! r = heap two_documents !! r) ∧
    heap w' !! 0 = Some d' ∧
    cls d' = PDFDocument ∧ filename d' = "annual_report.pdf".
Proof.
  split; [reflexivity|]. split; [reflexivity|].
  apply (operations_frame [Process; Open; Save] two_documents 0
           (Document_init PDFDocument "annual_report.pdf")); reflexivity.
Defined.

(** X5.  Output is only ever appended.  A sequence of operations leaves the
    lines printed before in place and adds exactly the lines of [trace]: one
    line for each [open], [read] and [save], five for each
    [process_document]. *)
Theorem operations_output ops w self d :
  heap w !! self = Some d →
  is_variant (cls d) = true →
  ∃ w',
    perform_all ops self w = inr ((), w') ∧
    stdout w' = stdout w ++ trace (cls d) (filename d) (_content d) ops ∧
    length (stdout w') = length (stdout w) + sum_list (lines_printed <$> ops).
Proof.
  intros Hself Hvariant. eexists.
  split; [by apply perform_all_effect|]. cbn [stdout].
  split; [done|]. by rewrite length_app, trace_length.
Qed.

Lemma operations_output_witness :
  heap two_documents !! 1 = Some (Document_init WordDocument "team_memo.docx") ∧
  is_variant (cls (Document_init WordDocument "team_memo.docx")) = true ∧
  ∃ w',
    perform_all [Read; Open; Read; Process; Save] 1 two_documents
      = inr ((), w') ∧
    stdout w' =
      stdout two_documents
      ++ trace WordDocument "team_memo.docx" None
           [Read; Open; Read; Process; Save] ∧
    length (stdout w') =
      length (stdout two_documents)
      + sum_list (lines_printed <$> [Read; Open; Read; Process; Save]).
Proof.
  split; [reflexivity|]. split; [reflexivity|].
  apply (operations_output [Read; Open; Read; Process; Save] two_documents 1
           (Document_init WordDocument "team_memo.docx")); reflexivity.
Defined.

(** X6.  The last operation that opens decides the content.  After a
    sequence of operations [_content] is what the fold of [content_step]
    gives: the placeholder if the last of the [open] and [process_document]
    calls was an [open], the placeholder followed by one suffix if it was a
    [process_document], and the earlier content if there was neither; the
    suffix never occurs twice. *)
Theorem content_last_writer ops w self d :
  heap w !! self = Some d →
  is_variant (cls d) = true →
  ∃ w' v,
    perform_all ops self w = inr ((), w') ∧
    _content <$> heap w' !! self = Some v ∧
    v = foldl (content_step (cls d)) (_content d) ops ∧
    (v = _content d ∨
     v = Some (placeholder (cls d)) ∨
     v = Some (placeholder (cls d) +:+ SUFFIX)).
Proof.
  intros Hself Hvariant. eexists _, _.
  split; [by apply perform_all_effect|]. cbn [heap].
  split; [by rewrite (lookup_updated _ _ d)|].
  split; [done | apply content_after_cases].
Qed.

Lemma content_last_writer_witness :
  heap (World [processed_memo] []) !! 0 = Some processed_memo ∧
  is_variant (cls processed_memo) = true ∧
  ∃ w' v,
    perform_all [Process; Read; Open; Save] 0 (World [processed_memo] [])
      = inr ((), w') ∧
    _content <$> heap w' !! 0 = Some v ∧
    v = foldl (content_step WordDocument) (_content processed_memo)
          [Process; Read; Open; Save] ∧
    (v = _content processed_memo ∨
     v = Some (placeholder WordDocument) ∨
     v = Some (placeholder WordDocument +:+ SUFFIX)).
Proof.
  split; [reflexivity|]. split; [reflexivity|].
  apply (content_last_writer [Process; Read; Open; Save]
           (World [processed_memo] []) 0 processed_memo); reflexivity.
Defined.

(** ** The loop of the main block *)

(** X4.  The loop [for doc in documents: process_document(doc)] over any
    list of variant instances, repeats allowed, runs to the end.  It prints
    the five lines of each document in list order; afterwards every listed
    document holds its placeholder followed by one suffix and every other
    object is as it was. *)
Theorem process_each_document docs w :
  Forall (λ r, live_variant (heap w) r = true) docs →
  ∃ w',
    for_each docs process_document w = inr ((), w') ∧
    stdout w' = stdout w ++ loop_lines (heap w) docs ∧
    length (heap w') = length (heap w) ∧
    ∀ (r : ref) d, heap w !! r = Some d →
      heap w' !! r = Some (if decide (r ∈ docs) then processed d else d).
Proof.
  intros Hdocs.
  destruct (for_each_process_ok docs w Hdocs) as (h' & Hrun & Hlen & Hlook).
  by eexists.
Qed.

Lemma process_each_document_witness :
  Forall (λ r, live_variant (heap two_documents) r = true) [1; 0; 1] ∧
  ∃ w',
    for_each [1; 0; 1] process_document two_documents = inr ((), w') ∧
    stdout w' = stdout two_documents ++ loop_lines (heap two_documents) [1; 0; 1] ∧
    length (heap w') = length (heap two_documents) ∧
    ∀ (r : ref) d, heap two_documents !! r = Some d →
      heap w' !! r = Some (if decide (r ∈ [1; 0; 1]) then processed d else d).
Proof.
  assert (Forall (λ r, live_variant (heap two_documents) r = true) [1; 0; 1])
    as H by (repeat constructor).
  split; [exact H|].
  exact (process_each_document [1; 0; 1] two_documents H).
Defined.

(** ** Construction *)

(** X7.  Constructing a variant instance prints nothing and disturbs no
    existing object: the reference returned was unused before, it now points
    to an instance with the given class and filename and no content, and
    every earlier reference points to the object it pointed to. *)
Theorem new_fresh_silent c fn w :
  is_variant c = true →
  ∃ doc w1,
    new c fn w = inr (doc, w1) ∧
    heap w !! doc = None ∧
    heap w1 !! doc = Some (Object c fn None) ∧
    stdout w1 = stdout w ∧
    ∀ (r : ref) d, heap w !! r = Some d → heap w1 !! r = Some d.
Proof.
  intros Hc. eexists _, _. split; [by apply new_variant|]. cbn [heap stdout].
  split; [by apply lookup_ge_None|]. split; [apply lookup_fresh|].
  split; [done|]. intros r d Hr. by apply lookup_app_l_Some.
Qed.

Lemma new_fresh_silent_witness :
  is_variant WordDocument = true ∧
  ∃ doc w1,
    new WordDocument "notes.docx" two_documents = inr (doc, w1) ∧
    heap two_documents !! doc = None ∧
    heap w1 !! doc = Some (Object WordDocument "notes.docx" None) ∧
    stdout w1 = stdout two_documents ∧
    ∀ (r : ref) d, heap two_documents !! r = Some d → heap w1 !! r = Some d.
Proof.
  split; [reflexivity|].
  apply (new_fresh_silent WordDocument "notes.docx" two_documents).
  reflexivity.
Defined.

(** ** What the variants print *)

(** X8.  Whatever the filename and whatever [_content] held, the line
    [read] prints right after [open] contains the variant's own
    placeholder. *)
Theorem open_read_always_shows_own_text w self d :
  heap w !! self = Some d →
  is_variant (cls d) = true →
  ∃ w' line,
    (open self;; read self) w = inr ((), w') ∧
    stdout w' = stdout w ++ [open_message (cls d) (filename d); line] ∧
    contains (placeholder (cls d)) line = true.
Proof.
  intros Hself Hvariant. eexists _, _.
  split; [by apply open_read_ok|]. split; [done|].
  unfold framed_content. do 6 apply contains_app_r. apply contains_here.
Qed.

Lemma open_read_always_shows_own_text_witness :
  heap (World [Document_init PDFDocument (placeholder WordDocument)] []) !! 0
    = Some (Document_init PDFDocument (placeholder WordDocument)) ∧
  is_variant (cls (Document_init PDFDocument (placeholder WordDocument))) = true ∧
  ∃ w' line,
    (open 0;; read 0)
      (World [Document_init PDFDocument (placeholder WordDocument)] [])
      = inr ((), w') ∧
    stdout w' = [open_message PDFDocument (placeholder WordDocument); line] ∧
    contains (placeholder PDFDocument) line = true.
Proof.
  split; [reflexivity|]. split; [reflexivity|].
  apply (open_read_always_shows_own_text
           (World [Document_init PDFDocument (placeholder WordDocument)] []) 0
           (Document_init PDFDocument (placeholder WordDocument))); reflexivity.
Defined.

(** X9.  Dispatch shows in the output.  For two instances of different
    variants, whatever their filenames, [open] prints different lines and
    [save] prints different lines. *)
Theorem variants_print_distinct_lines w (r1 r2 : ref) d1 d2 :
  heap w !! r1 = Some d1 →
  heap w !! r2 = Some d2 →
  is_variant (cls d1) = true →
  is_variant (cls d2) = true →
  cls d1 ≠ cls d2 →
  ∃ o1 o2 s1 s2 wo1 wo2,
    open r1 w = inr ((), wo1) ∧ stdout wo1 = stdout w ++ [o1] ∧
    open r2 w = inr ((), wo2) ∧ stdout wo2 = stdout w ++ [o2] ∧
    save r1 w = inr ((), World (heap w) (stdout w ++ [s1])) ∧
    save r2 w = inr ((), World (heap w) (stdout w ++ [s2])) ∧
    o1 ≠ o2 ∧ s1 ≠ s2.
Proof.
  intros H1 H2 Hv1 Hv2 Hne.
  destruct (messages_tell_variants (cls d1) (cls d2) (filename d1) (filename d2))
    as [Ho Hs]; [done..|].
  eexists _, _, _, _, _, _.
  split; [by apply open_ok|]. split; [done|].
  split; [by apply open_ok|]. split; [done|].
  split; [by apply save_ok|]. split; [by apply save_ok|]. done.
Qed.

Lemma variants_print_distinct_lines_witness :
  heap two_documents !! 0 = Some (Document_init PDFDocument "annual_report.pdf") ∧
  heap two_documents !! 1 = Some (Document_init WordDocument "team_memo.docx") ∧
  is_variant PDFDocument = true ∧
  is_variant WordDocument = true ∧
  PDFDocument ≠ WordDocument ∧
  ∃ o1 o2 s1 s2 wo1 wo2,
    open 0 two_documents = inr ((), wo1) ∧
    stdout wo1 = stdout two_documents ++ [o1] ∧
    open 1 two_documents = inr ((), wo2) ∧
    stdout wo2 = stdout two_documents ++ [o2] ∧
    save 0 two_documents
      = inr ((), World (heap two_documents) (stdout two_documents ++ [s1])) ∧
    save 1 two_documents
      = inr ((), World (heap two_documents) (stdout two_documents ++ [s2])) ∧
    o1 ≠ o2 ∧ s1 ≠ s2.
Proof.
  split; [reflexivity|]. split; [reflexivity|]. split; [reflexivity|].
  split; [reflexivity|]. split; [discriminate|].
  apply (variants_print_distinct_lines two_documents 0 1
           (Document_init PDFDocument "annual_report.pdf")
           (Document_init WordDocument "team_memo.docx"));
    [reflexivity | reflexivity | reflexivity | reflexivity | discriminate].
Defined.
